(** * The document registry of [main.py]

    A shallow embedding of the module-level load and index construction
    and of the three request handlers ([get_documents],
    [get_duplicate_documents], [update_document]), with the global
    indexes threaded as an explicit store. *)

From stdpp Require Import gmap strings list fin_maps.

Open Scope string_scope.
Open Scope list_scope.

(** ** Python values *)

(** The atoms that occur as dictionary keys and as cells of a row:
    [None], a [str], an [int].  Python's [==] on these is constructor-wise:
    a [str] never equals an [int] (["1" == 1] is [False]). *)
Inductive pyval :=
  | VNone
  | VStr (s : string)
  | VInt (z : Z).

#[global] Instance pyval_eq_dec : EqDecision pyval.
Proof. solve_decision. Defined.

Definition pyval_encode (v : pyval) : unit + (string + Z) :=
  match v with
  | VNone => inl ()
  | VStr s => inr (inl s)
  | VInt z => inr (inr z)
  end.

Definition pyval_decode (x : unit + (string + Z)) : pyval :=
  match x with
  | inl _ => VNone
  | inr (inl s) => VStr s
  | inr (inr z) => VInt z
  end.

#[global] Instance pyval_countable : Countable pyval.
Proof.
  refine (inj_countable' pyval_encode pyval_decode _).
  by intros [].
Defined.

(** A row is a [dict] object.  No statement of [main.py] assigns into a
    row, so an object is its identity together with its (fixed) contents;
    [oid] is the allocation number. *)
Record obj := Obj {
  oid : nat;
  fields : gmap string pyval;
}.

#[global] Instance obj_eq_dec : EqDecision obj.
Proof. solve_decision. Defined.

(** What a variable that is compared with [is None] may hold. *)
Inductive pyref :=
  | PyNone
  | PyDict (o : obj).

(** Exceptions that the module can raise. *)
Inductive exn :=
  | KeyError (k : pyval)
  | ValueError
  | ValidationError
  | HTTPException (status_code : Z).

Inductive result (A : Type) :=
  | Ok (a : A)
  | Raise (e : exn).

Arguments Ok {A} a.
Arguments Raise {A} e.

(** An exception propagates past every later statement. *)
#[global] Instance result_bind : MBind result := λ A B f r,
  match r with
  | Ok a => f a
  | Raise e => Raise e
  end.

#[global] Instance result_fmap : FMap result := λ A B f r,
  match r with
  | Ok a => Ok (f a)
  | Raise e => Raise e
  end.

(** [d[k]] on a row. *)
Definition getitem (o : obj) (k : string) : result pyval :=
  match fields o !! k with
  | Some v => Ok v
  | None => Raise (KeyError (VStr k))
  end.

(** ** pydantic classes *)

Inductive DocumentStatus :=
  | SUCCEEDED
  | NEEDS_REVIEW.

#[global] Instance DocumentStatus_eq_dec : EqDecision DocumentStatus.
Proof. solve_decision. Defined.

Definition status_name (s : DocumentStatus) : string :=
  match s with
  | SUCCEEDED => "SUCCEEDED"
  | NEEDS_REVIEW => "NEEDS_REVIEW"
  end.

(** [status] is an [option]: [model_copy(update=...)] does not validate, so
    an explicit [null] in a patch body lands in the field as [None]. *)
Record Document := mkDocument {
  id : Z;
  pdf_path : string;
  status : option DocumentStatus;
}.

#[global] Instance Document_eq_dec : EqDecision Document.
Proof. solve_decision. Defined.

(** [DocumentUpdate]: the one field is left unset, or set (to a status or
    to an explicit [None]); [model_dump(exclude_unset=True)] tells the
    two apart. *)
Inductive DocumentUpdate :=
  | status_unset
  | status_set (v : option DocumentStatus).

Inductive response :=
  | DocumentsResponse (documents : list Document)
  | GroupedDocumentsResponse (documents : gmap string (list Document))
  | DocumentResponse (document : Document).

(** ** The store: the module's globals *)

Record store := Store {
  documents : list obj;
  documents_by_id : gmap pyval pyref;
  documents_by_status : gmap pyval (list obj);
  documents_by_pdf_path : gmap pyval (list obj);
  duplicates : gmap pyval (list obj);
  next_oid : nat;
}.

(** A [csv.DictReader] row: the header's column names mapped to the
    cell, [None] where the line is shorter than the header.  (The reader
    files the surplus cells of a longer line under the key [None]; such
    lines are outside this type.) *)
Definition cell_value (c : option string) : pyval :=
  match c with
  | Some s => VStr s
  | None => VNone
  end.

Definition row_object (n : nat) (r : gmap string (option string)) : obj :=
  Obj n (cell_value <$> r).

(** [for row in reader: documents.append(row)] *)
Definition read_documents (rows : list (gmap string (option string))) : list obj :=
  imap row_object rows.

(** [{doc['id']: doc for doc in documents}]: a later row overwrites an
    earlier one with the same key. *)
Fixpoint index_by_id (docs : list obj) (m : gmap pyval pyref) : result (gmap pyval pyref) :=
  match docs with
  | [] => Ok m
  | doc :: rest =>
      k ← getitem doc "id";
      index_by_id rest (<[k := PyDict doc]> m)
  end.

(** [m[k]] on a [defaultdict(list)]: a missing key is inserted with [[]]. *)
Definition dd_getitem (m : gmap pyval (list obj)) (k : pyval) : list obj * gmap pyval (list obj) :=
  match m !! k with
  | Some l => (l, m)
  | None => ([], <[k := []]> m)
  end.

(** [m[k].append(x)] *)
Definition dd_append (m : gmap pyval (list obj)) (k : pyval) (x : obj) : gmap pyval (list obj) :=
  let '(l, m1) := dd_getitem m k in
  <[k := l ++ [x]]> m1.

(** [for doc in documents: m[doc[field]].append(doc)] *)
Fixpoint group_by (field : string) (docs : list obj) (m : gmap pyval (list obj)) : result (gmap pyval (list obj)) :=
  match docs with
  | [] => Ok m
  | doc :: rest =>
      k ← getitem doc field;
      group_by field rest (dd_append m k doc)
  end.

(** [{path: docs for path, docs in documents_by_pdf_path.items() if len(docs) > 1}] *)
Definition find_duplicates (by_path : gmap pyval (list obj)) : gmap pyval (list obj) :=
  filter (λ kv, 1 < length kv.2) by_path.

(** The module-level statements from line 43 to line 70. *)
Definition load (rows : list (gmap string (option string))) : result store :=
  let docs := read_documents rows in
  by_id ← index_by_id docs ∅;
  by_status ← group_by "status" docs ∅;
  by_path ← group_by "pdf_path" docs ∅;
  Ok (Store docs by_id by_status by_path (find_duplicates by_path) (length docs)).

(** The scenario of three documents. *)
Definition csv_row (i p s : string) : gmap string (option string) :=
  {[ "id" := Some i; "pdf_path" := Some p; "status" := Some s ]}.

Definition scenario_rows : list (gmap string (option string)) :=
  [ csv_row "1" "a.pdf" "NEEDS_REVIEW";
    csv_row "2" "a.pdf" "SUCCEEDED";
    csv_row "3" "b.pdf" "SUCCEEDED" ].

Definition doc1 : obj := row_object 0 (csv_row "1" "a.pdf" "NEEDS_REVIEW").
Definition doc2 : obj := row_object 1 (csv_row "2" "a.pdf" "SUCCEEDED").
Definition doc3 : obj := row_object 2 (csv_row "3" "b.pdf" "SUCCEEDED").

Definition scenario : store :=
  Store [doc1; doc2; doc3]
    {[ VStr "1" := PyDict doc1; VStr "2" := PyDict doc2; VStr "3" := PyDict doc3 ]}
    {[ VStr "NEEDS_REVIEW" := [doc1]; VStr "SUCCEEDED" := [doc2; doc3] ]}
    {[ VStr "a.pdf" := [doc1; doc2]; VStr "b.pdf" := [doc3] ]}
    {[ VStr "a.pdf" := [doc1; doc2] ]}
    3.

(** The contents of a bucket as a reader sees them: a missing key reads
    as the empty list. *)
Definition bucket (m : gmap pyval (list obj)) (k : pyval) : list obj :=
  default [] (m !! k).

(** ** The request handlers *)

(** [l.remove(x)]: drops the first item that compares equal to [x] (two
    dicts are equal when their contents are); [None] stands for the
    [ValueError] of a list without such an item. *)
Fixpoint list_remove_first (x : obj) (l : list obj) : option (list obj) :=
  match l with
  | [] => None
  | y :: l' =>
      if decide (fields y = fields x) then Some l'
      else (y ::.) <$> list_remove_first x l'
  end.

(** What FastAPI answers: an [HTTPException] carries its status code, any
    other exception that leaves a handler is a 500. *)
Definition http_status {A} (r : result A) : Z :=
  match r with
  | Ok _ => 200
  | Raise (HTTPException c) => c
  | Raise _ => 500
  end.

Definition set_by_status (st : store) (m : gmap pyval (list obj)) : store :=
  Store (documents st) (documents_by_id st) m (documents_by_pdf_path st)
        (duplicates st) (next_oid st).

Definition set_by_id (st : store) (m : gmap pyval pyref) : store :=
  Store (documents st) m (documents_by_status st) (documents_by_pdf_path st)
        (duplicates st) (next_oid st).

(** A new dict object: it takes the next identity. *)
Definition new_dict (d : gmap string pyval) (st : store) : obj * store :=
  (Obj (next_oid st) d,
   Store (documents st) (documents_by_id st) (documents_by_status st)
         (documents_by_pdf_path st) (duplicates st) (S (next_oid st))).

Section handlers.

(** pydantic's coercion of a [str] to an [int] (the library's, not
    this module's). *)
Context (int_of_str : string → option Z).

Definition validate_int (v : option pyval) : option Z :=
  match v with
  | Some (VInt z) => Some z
  | Some (VStr s) => int_of_str s
  | _ => None
  end.

Definition validate_str (v : option pyval) : option string :=
  match v with
  | Some (VStr s) => Some s
  | _ => None
  end.

Definition validate_status (v : option pyval) : option DocumentStatus :=
  match v with
  | Some (VStr s) =>
      if decide (s = "SUCCEEDED") then Some SUCCEEDED
      else if decide (s = "NEEDS_REVIEW") then Some NEEDS_REVIEW
      else None
  | _ => None
  end.

(** [Document] called on the items of a row; [None] stands for
    pydantic's [ValidationError]. *)
Definition Document_validate (d : gmap string pyval) : option Document :=
  i ← validate_int (d !! "id");
  p ← validate_str (d !! "pdf_path");
  s ← validate_status (d !! "status");
  Some (mkDocument i p (Some s)).

Definition validate_documents (l : list obj) : option (list Document) :=
  mapM (λ o, Document_validate (fields o)) l.

(** One item of a [dict[str, list[Document]]]. *)
Definition validate_group (kv : pyval * list obj) : option (string * list Document) :=
  k ← validate_str (Some kv.1);
  docs ← validate_documents kv.2;
  Some (k, docs).

Definition validate_groups (m : gmap pyval (list obj)) : option (gmap string (list Document)) :=
  list_to_map <$> mapM validate_group (map_to_list m).

Definition validated {A} (o : option A) : result A :=
  match o with
  | Some a => Ok a
  | None => Raise ValidationError
  end.

(** [d.model_copy(update=document.model_dump(exclude_unset=True))] *)
Definition model_copy (d : Document) (document : DocumentUpdate) : Document :=
  match document with
  | status_unset => d
  | status_set v => mkDocument (id d) (pdf_path d) v
  end.

Definition dump_status (s : option DocumentStatus) : pyval :=
  match s with
  | Some s => VStr (status_name s)
  | None => VNone
  end.

(** [d.model_dump()] *)
Definition model_dump (d : Document) : gmap string pyval :=
  {[ "id" := VInt (id d); "pdf_path" := VStr (pdf_path d);
     "status" := dump_status (status d) ]}.

(** GET /documents/status/{status} *)
Definition get_documents (status : DocumentStatus) (st : store) : result response * store :=
  let '(docs, by_status) := dd_getitem (documents_by_status st) (VStr (status_name status)) in
  (DocumentsResponse <$> validated (validate_documents docs), set_by_status st by_status).

(** GET /documents/duplicates *)
Definition get_duplicate_documents (st : store) : result response * store :=
  (GroupedDocumentsResponse <$> validated (validate_groups (duplicates st)), st).

(** The statements of [update_document] under [# update indexes], one
    after the other; an exception leaves behind what the statements
    before it have done. *)
Definition update_indexes (old_record new_record : obj) (st : store) : result unit * store :=
  match getitem old_record "status" with
  | Raise e => (Raise e, st)
  | Ok old_status =>
      let '(l, by_status1) := dd_getitem (documents_by_status st) old_status in
      match list_remove_first old_record l with
      | None => (Raise ValueError, set_by_status st by_status1)
      | Some l' =>
          let st2 := set_by_status st (<[old_status := l']> by_status1) in
          match getitem new_record "status" with
          | Raise e => (Raise e, st2)
          | Ok new_status =>
              let st3 :=
                set_by_status st2
                  (dd_append (documents_by_status st2) new_status new_record) in
              match getitem new_record "id" with
              | Raise e => (Raise e, st3)
              | Ok new_id =>
                  (Ok (),
                   set_by_id st3 (<[new_id := PyDict new_record]> (documents_by_id st3)))
              end
          end
      end
  end.

(** PATCH /documents/{id} *)
Definition update_document (id : Z) (document : DocumentUpdate) (st : store) : result response * store :=
  match documents_by_id st !! VInt id with
  | None => (Raise (KeyError (VInt id)), st)
  | Some PyNone => (Raise (HTTPException 404), st)
  | Some (PyDict old_record) =>
      match Document_validate (fields old_record) with
      | None => (Raise ValidationError, st)
      | Some doc =>
          let updated_document := model_copy doc document in
          let '(new_record, st1) := new_dict (model_dump updated_document) st in
          let '(r, st') := update_indexes old_record new_record st1 in
          (_ ← r; Ok (DocumentResponse updated_document), st')
      end
  end.

Inductive request :=
  | GET_documents_status (status : DocumentStatus)
  | GET_documents_duplicates
  | PATCH_documents (id : Z) (document : DocumentUpdate).

Definition handle (rq : request) (st : store) : result response * store :=
  match rq with
  | GET_documents_status s => get_documents s st
  | GET_documents_duplicates => get_duplicate_documents st
  | PATCH_documents i d => update_document i d st
  end.

(** The requests are served one after the other on the same globals. *)
Fixpoint serve (rqs : list request) (st : store) : list (result response) * store :=
  match rqs with
  | [] => ([], st)
  | rq :: rest =>
      let '(r, st1) := handle rq st in
      let '(rs, st2) := serve rest st1 in
      (r :: rs, st2)
  end.

End handlers.

(** The integers written in decimal digits, on which every reading of a
    [str] as an [int] agrees; used to run the handlers in the examples. *)
Definition digit_value (c : Ascii.ascii) : option Z :=
  let n := Z.of_nat (Ascii.nat_of_ascii c) in
  if decide (48 ≤ n ≤ 57)%Z then Some (n - 48)%Z else None.

Fixpoint decimal_from (acc : Z) (s : string) : option Z :=
  match s with
  | EmptyString => Some acc
  | String c s' => d ← digit_value c; decimal_from (10 * acc + d) s'
  end.

Definition decimal (s : string) : option Z :=
  match s with
  | EmptyString => None
  | _ => decimal_from 0 s
  end.

(** ** Predicates on stores and sample inputs *)

(** The last document whose [field] holds [k]. *)
Definition last_with (field : string) (k : pyval) (docs : list obj) : option obj :=
  last (filter (λ o, fields o !! field = Some k) docs).

(** No key of [documents_by_id] is an [int]. *)
Definition str_keyed (st : store) : Prop :=
  ∀ z, documents_by_id st !! VInt z = None.

(** The parts of the store that no handler assigns to. *)
Definition same_fixed_globals (st st' : store) : Prop :=
  documents st' = documents st ∧
  documents_by_pdf_path st' = documents_by_pdf_path st ∧
  duplicates st' = duplicates st.

(** A [defaultdict] with a key bound to [[]] reads like one without it. *)
Definition same_buckets (m m' : gmap pyval (list obj)) : Prop :=
  ∀ k, bucket m k = bucket m' k.

Definition observably_equal (st st' : store) : Prop :=
  documents st = documents st' ∧
  documents_by_id st = documents_by_id st' ∧
  same_buckets (documents_by_status st) (documents_by_status st') ∧
  documents_by_pdf_path st = documents_by_pdf_path st' ∧
  duplicates st = duplicates st' ∧
  next_oid st = next_oid st'.

(** A line that stops after the id, an id that is not a number, and two
    rows with the same id. *)
Definition short_row : gmap string (option string) :=
  {[ "id" := Some "8"; "pdf_path" := None; "status" := None ]}.


(** A store like [scenario] but keyed by [int] in [documents_by_id], and
    the dict that [update_document] would build on it for document 1. *)
Definition int_keyed_scenario : store :=
  Store (documents scenario)
    {[ VInt 1 := PyDict doc1; VInt 2 := PyDict doc2; VInt 3 := PyDict doc3 ]}
    (documents_by_status scenario) (documents_by_pdf_path scenario)
    (duplicates scenario) (next_oid scenario).

Definition moved_doc1 : obj :=
  Obj 3 {[ "id" := VInt 1; "pdf_path" := VStr "a.pdf"; "status" := VStr "SUCCEEDED" ]}.

(** Two lines that stop after the id, and a line whose id is no number,
    with the stores they load to. *)
Definition pathless_rows : list (gmap string (option string)) :=
  [ short_row; {[ "id" := Some "9"; "pdf_path" := None; "status" := None ]} ].

Definition pathless_store : store :=
  let o0 := row_object 0 short_row in
  let o1 := row_object 1 {[ "id" := Some "9"; "pdf_path" := None; "status" := None ]} in
  Store [o0; o1]
    {[ VStr "8" := PyDict o0; VStr "9" := PyDict o1 ]}
    {[ VNone := [o0; o1] ]}
    {[ VNone := [o0; o1] ]}
    {[ VNone := [o0; o1] ]}
    2.

Definition malformed_store : store :=
  let o0 := row_object 0 (csv_row "seven" "c.pdf" "SUCCEEDED") in
  Store [o0]
    {[ VStr "seven" := PyDict o0 ]}
    {[ VStr "SUCCEEDED" := [o0] ]}
    {[ VStr "c.pdf" := [o0] ]}
    ∅
    1.

(** ** Loading *)

Lemma getitem_Ok o k v : getitem o k = Ok v ↔ fields o !! k = Some v.
Proof. unfold getitem. destruct (fields o !! k); split; congruence. Qed.

Lemma fields_row_object n r k :
  fields (row_object n r) !! k = cell_value <$> (r !! k).
Proof. apply lookup_fmap. Qed.

Lemma cell_value_not_int c z : cell_value c ≠ VInt z.
Proof. by destruct c. Qed.

Lemma read_documents_fields rows o :
  o ∈ read_documents rows → ∃ r, r ∈ rows ∧ fields o = cell_value <$> r.
Proof.
  unfold read_documents. intros Ho.
  apply list_elem_of_lookup in Ho as [i Hi].
  rewrite list_lookup_imap in Hi.
  destruct (rows !! i) as [r|] eqn:Hr; simplify_eq/=.
  exists r. split; [by eapply list_elem_of_lookup_2 | done].
Qed.

Lemma last_with_cons field k doc docs :
  last_with field k (doc :: docs) =
    match last_with field k docs with
    | Some o => Some o
    | None => if decide (fields doc !! field = Some k) then Some doc else None
    end.
Proof.
  unfold last_with. rewrite filter_cons.
  destruct (decide (fields doc !! field = Some k)) as [_|_].
  - rewrite last_cons. by destruct (last _).
  - by destruct (last _).
Qed.

Lemma index_by_id_lookup docs : ∀ m m',
  index_by_id docs m = Ok m' →
  ∀ k, m' !! k = match last_with "id" k docs with
                 | Some o => Some (PyDict o)
                 | None => m !! k
                 end.
Proof.
  induction docs as [|doc docs IH]; intros m m' Hm k; simpl in Hm.
  - by injection Hm as <-.
  - destruct (getitem doc "id") as [k0|] eqn:Hk0; [|done]. simpl in Hm.
    apply getitem_Ok in Hk0.
    rewrite (IH _ _ Hm k), last_with_cons.
    destruct (last_with "id" k docs); [done|].
    rewrite Hk0. destruct (decide (Some k0 = Some k)) as [[= ->]|Hne].
    + by rewrite lookup_insert_eq.
    + rewrite lookup_insert_ne; congruence.
Qed.

Lemma index_by_id_total docs : ∀ m,
  Forall (λ o, is_Some (fields o !! "id")) docs →
  ∃ m', index_by_id docs m = Ok m'.
Proof.
  induction docs as [|doc docs IH]; intros m Hall; simpl.
  - by eexists.
  - apply Forall_cons in Hall as [[k Hk] Hall].
    apply getitem_Ok in Hk. rewrite Hk. simpl. by apply IH.
Qed.

Lemma bucket_dd_append m k x k' :
  bucket (dd_append m k x) k' =
    if decide (k = k') then bucket m k' ++ [x] else bucket m k'.
Proof.
  unfold dd_append, dd_getitem, bucket.
  destruct (m !! k) as [l|] eqn:Hl; destruct (decide (k = k')) as [<-|Hne];
    rewrite ?lookup_insert_eq, ?lookup_insert_ne, ?Hl by done; done.
Qed.

Lemma dd_append_None m k x k' :
  dd_append m k x !! k' = None ↔ m !! k' = None ∧ k ≠ k'.
Proof.
  unfold dd_append, dd_getitem.
  destruct (m !! k) as [l|] eqn:Hl; destruct (decide (k = k')) as [<-|Hne];
    rewrite ?lookup_insert_eq, ?lookup_insert_ne by done; naive_solver.
Qed.

Lemma group_by_bucket field docs : ∀ m m',
  group_by field docs m = Ok m' →
  ∀ k, bucket m' k =
       bucket m k ++ filter (λ o, fields o !! field = Some k) docs.
Proof.
  induction docs as [|doc docs IH]; intros m m' Hm k; simpl in Hm.
  - injection Hm as <-. by rewrite app_nil_r.
  - destruct (getitem doc field) as [k0|] eqn:Hk0; [|done]. simpl in Hm.
    apply getitem_Ok in Hk0.
    rewrite (IH _ _ Hm k), bucket_dd_append, filter_cons, Hk0.
    destruct (decide (k0 = k)) as [->|Hne].
    + rewrite decide_True by done. by rewrite <-app_assoc.
    + rewrite decide_False by congruence. done.
Qed.

Lemma group_by_None field docs : ∀ m m',
  group_by field docs m = Ok m' →
  ∀ k, m' !! k = None ↔
       m !! k = None ∧ Forall (λ o, fields o !! field ≠ Some k) docs.
Proof.
  induction docs as [|doc docs IH]; intros m m' Hm k; simpl in Hm.
  - injection Hm as <-. rewrite Forall_nil. tauto.
  - destruct (getitem doc field) as [k0|] eqn:Hk0; [|done]. simpl in Hm.
    apply getitem_Ok in Hk0.
    rewrite (IH _ _ Hm k), dd_append_None, Forall_cons, Hk0.
    naive_solver.
Qed.

Lemma group_by_total field docs : ∀ m,
  Forall (λ o, is_Some (fields o !! field)) docs →
  ∃ m', group_by field docs m = Ok m'.
Proof.
  induction docs as [|doc docs IH]; intros m Hall; simpl.
  - by eexists.
  - apply Forall_cons in Hall as [[k Hk] Hall].
    apply getitem_Ok in Hk. rewrite Hk. simpl. by apply IH.
Qed.

Lemma find_duplicates_lookup (by_path : gmap pyval (list obj)) p l :
  find_duplicates by_path !! p = Some l ↔ by_path !! p = Some l ∧ 1 < length l.
Proof. unfold find_duplicates. by rewrite map_lookup_filter_Some. Qed.

(** What a successful load leaves in the globals. *)
Lemma load_Ok rows st :
  load rows = Ok st →
  documents st = read_documents rows ∧
  index_by_id (read_documents rows) ∅ = Ok (documents_by_id st) ∧
  group_by "status" (read_documents rows) ∅ = Ok (documents_by_status st) ∧
  group_by "pdf_path" (read_documents rows) ∅ = Ok (documents_by_pdf_path st) ∧
  duplicates st = find_duplicates (documents_by_pdf_path st) ∧
  next_oid st = length rows.
Proof.
  unfold load. intros H.
  destruct (index_by_id _ _) as [by_id|]; [|done].
  destruct (group_by "status" _ _) as [by_status|]; [|done].
  destruct (group_by "pdf_path" _ _) as [by_path|]; [|done].
  simpl in H. injection H as <-. simpl.
  unfold read_documents. by rewrite length_imap.
Qed.

Lemma scenario_load : load scenario_rows = Ok scenario.
Proof. vm_compute. reflexivity. Qed.

Lemma last_with_None field k docs :
  Forall (λ o, fields o !! field ≠ Some k) docs → last_with field k docs = None.
Proof.
  induction 1 as [|doc docs Hdoc _ IH]; [done|].
  rewrite last_with_cons, IH. by rewrite decide_False.
Qed.

Lemma last_with_Some field k docs o :
  last_with field k docs = Some o → o ∈ docs ∧ fields o !! field = Some k.
Proof.
  unfold last_with. intros Ho%last_Some_elem_of.
  by apply list_elem_of_filter in Ho as [? ?].
Qed.

Lemma read_documents_no_int rows field z :
  Forall (λ o, fields o !! field ≠ Some (VInt z)) (read_documents rows).
Proof.
  apply Forall_forall. intros o [r [_ ->]]%read_documents_fields.
  rewrite lookup_fmap. destruct (r !! field) as [c|]; [|done].
  simpl. intros [= H]. by apply cell_value_not_int in H.
Qed.

Lemma load_str_keyed rows st : load rows = Ok st → str_keyed st.
Proof.
  intros (_ & Hid & _)%load_Ok z.
  rewrite (index_by_id_lookup _ _ _ Hid).
  by rewrite last_with_None by apply read_documents_no_int.
Qed.


Lemma load_by_id rows st k :
  load rows = Ok st →
  documents_by_id st !! k = PyDict <$> last_with "id" k (documents st).
Proof.
  intros (-> & Hid & _)%load_Ok.
  rewrite (index_by_id_lookup _ _ _ Hid).
  by destruct (last_with _ _ _).
Qed.

Lemma load_by_status rows st k :
  load rows = Ok st →
  bucket (documents_by_status st) k =
    filter (λ o, fields o !! "status" = Some k) (documents st).
Proof.
  intros (-> & _ & Hst & _)%load_Ok.
  by rewrite (group_by_bucket _ _ _ _ Hst).
Qed.

Lemma load_by_pdf_path rows st k :
  load rows = Ok st →
  bucket (documents_by_pdf_path st) k =
    filter (λ o, fields o !! "pdf_path" = Some k) (documents st).
Proof.
  intros (-> & _ & _ & Hp & _)%load_Ok.
  by rewrite (group_by_bucket _ _ _ _ Hp).
Qed.

(** ** The handlers on the globals *)

Section handler_properties.

Context (int_of_str : string → option Z).

Lemma update_document_str_keyed id document st :
  str_keyed st →
  update_document int_of_str id document st = (Raise (KeyError (VInt id)), st).
Proof. intros Hst. unfold update_document. by rewrite Hst. Qed.

Lemma get_documents_store status st :
  (get_documents int_of_str status st).2 =
    set_by_status st (dd_getitem (documents_by_status st) (VStr (status_name status))).2.
Proof. unfold get_documents. by destruct (dd_getitem _ _). Qed.

Lemma update_indexes_fixed old_record new_record st :
  same_fixed_globals st (update_indexes old_record new_record st).2.
Proof.
  unfold update_indexes, same_fixed_globals.
  repeat case_match; simplify_eq/=; done.
Qed.

Lemma handle_fixed rq st :
  same_fixed_globals st (handle int_of_str rq st).2.
Proof.
  destruct rq as [s| |i d]; simpl.
  - by rewrite get_documents_store.
  - done.
  - unfold update_document, new_dict.
    destruct (documents_by_id st !! VInt i) as [[|old_record]|]; [done| |done].
    destruct (Document_validate _ _) as [doc|]; [|done].
    match goal with
    | |- context [update_indexes ?o ?n ?s] =>
        pose proof (update_indexes_fixed o n s) as Hf;
        destruct (update_indexes o n s) as [r st']
    end.
    exact Hf.
Qed.

Lemma serve_fixed rqs : ∀ st,
  same_fixed_globals st (serve int_of_str rqs st).2.
Proof.
  induction rqs as [|rq rqs IH]; intros st; simpl; [done|].
  pose proof (handle_fixed rq st) as Hrq.
  destruct (handle int_of_str rq st) as [r st1]. specialize (IH st1).
  destruct (serve int_of_str rqs st1) as [rs st2]. simpl in *.
  unfold same_fixed_globals in *. naive_solver congruence.
Qed.

Lemma handle_str_keyed rq st :
  str_keyed st → str_keyed (handle int_of_str rq st).2.
Proof.
  intros Hst. destruct rq as [s| |i d]; simpl.
  - by rewrite get_documents_store.
  - done.
  - by rewrite update_document_str_keyed.
Qed.

Lemma serve_str_keyed rqs : ∀ st,
  str_keyed st → str_keyed (serve int_of_str rqs st).2.
Proof.
  induction rqs as [|rq rqs IH]; intros st Hst; simpl; [done|].
  pose proof (handle_str_keyed rq st Hst) as Hrq.
  destruct (handle int_of_str rq st) as [r st1]. specialize (IH st1 Hrq).
  by destruct (serve int_of_str rqs st1) as [rs st2].
Qed.

(** The keys of [documents_by_id] are the [id] cells of the loaded
    rows for as long as the process serves. *)
Lemma serve_by_id rqs : ∀ st,
  str_keyed st →
  documents_by_id (serve int_of_str rqs st).2 = documents_by_id st.
Proof.
  induction rqs as [|rq rqs IH]; intros st Hst; simpl; [done|].
  pose proof (handle_str_keyed rq st Hst) as Hrq.
  assert (documents_by_id (handle int_of_str rq st).2 = documents_by_id st)
    as Hid.
  { destruct rq as [s| |i d]; simpl.
    - by rewrite get_documents_store.
    - done.
    - by rewrite update_document_str_keyed. }
  destruct (handle int_of_str rq st) as [r st1]. specialize (IH st1 Hrq).
  destruct (serve int_of_str rqs st1) as [rs st2]. simpl in *. congruence.
Qed.

End handler_properties.

(** ** Stores that no sequence of requests tells apart *)

Lemma same_buckets_refl m : same_buckets m m.
Proof. done. Qed.

Lemma observably_equal_refl st : observably_equal st st.
Proof. by repeat split. Qed.

Lemma bucket_insert (m : gmap pyval (list obj)) k l k' :
  bucket (<[k := l]> m) k' = if decide (k = k') then l else bucket m k'.
Proof.
  unfold bucket. rewrite lookup_insert. by destruct (decide (k = k')).
Qed.

Lemma same_buckets_insert m m' k l :
  same_buckets m m' → same_buckets (<[k := l]> m) (<[k := l]> m').
Proof. intros H k'. rewrite !bucket_insert. by rewrite H. Qed.

Lemma same_buckets_dd_append m m' k x :
  same_buckets m m' → same_buckets (dd_append m k x) (dd_append m' k x).
Proof. intros H k'. rewrite !bucket_dd_append. by rewrite H. Qed.

Lemma dd_getitem_fst m k : (dd_getitem m k).1 = bucket m k.
Proof. unfold dd_getitem, bucket. by destruct (m !! k). Qed.

Lemma dd_getitem_snd m k : same_buckets m (dd_getitem m k).2.
Proof.
  unfold dd_getitem. destruct (m !! k) as [l|] eqn:Hl; simpl; [done|].
  intros k'. rewrite bucket_insert. destruct (decide (k = k')) as [<-|]; [|done].
  unfold bucket. by rewrite Hl.
Qed.

Lemma dd_getitem_same m m' k :
  same_buckets m m' →
  (dd_getitem m k).1 = (dd_getitem m' k).1 ∧
  same_buckets (dd_getitem m k).2 (dd_getitem m' k).2.
Proof.
  intros H. rewrite !dd_getitem_fst. split; [apply H|].
  intros k'. rewrite <-(dd_getitem_snd m k k'), <-(dd_getitem_snd m' k k').
  apply H.
Qed.

Section observation.

Context (int_of_str : string → option Z).

Lemma update_indexes_observably_equal old_record new_record st st' :
  observably_equal st st' →
  (update_indexes old_record new_record st).1 =
    (update_indexes old_record new_record st').1 ∧
  observably_equal (update_indexes old_record new_record st).2
                   (update_indexes old_record new_record st').2.
Proof.
  intros (Hd & Hid & Hst & Hp & Hdup & Hn). unfold update_indexes.
  destruct (getitem old_record "status") as [old_status|];
    [|by repeat split].
  destruct (dd_getitem_same _ _ old_status Hst) as [Hl Hm].
  destruct (dd_getitem (documents_by_status st) old_status) as [l m1].
  destruct (dd_getitem (documents_by_status st') old_status) as [l' m1'].
  simpl in Hl, Hm. subst l'.
  destruct (list_remove_first old_record l) as [l1|]; [|by repeat split].
  pose proof (same_buckets_insert _ _ old_status l1 Hm) as Hm2.
  destruct (getitem new_record "status") as [new_status|];
    [|by repeat split].
  pose proof (same_buckets_dd_append _ _ new_status new_record Hm2) as Hm3.
  destruct (getitem new_record "id") as [new_id|];
    (split; [done|]); repeat split; simpl; congruence.
Qed.

Lemma handle_observably_equal rq st st' :
  observably_equal st st' →
  (handle int_of_str rq st).1 = (handle int_of_str rq st').1 ∧
  observably_equal (handle int_of_str rq st).2 (handle int_of_str rq st').2.
Proof.
  intros Heq. pose proof Heq as (Hd & Hid & Hst & Hp & Hdup & Hn).
  destruct rq as [s| |i d]; simpl.
  - unfold get_documents.
    destruct (dd_getitem_same _ _ (VStr (status_name s)) Hst) as [Hl Hm].
    destruct (dd_getitem (documents_by_status st) _) as [l m1].
    destruct (dd_getitem (documents_by_status st') _) as [l' m1'].
    simpl in *. subst l'. by repeat split.
  - unfold get_duplicate_documents. simpl. by rewrite Hdup.
  - unfold update_document, new_dict. rewrite <-Hid, <-Hn.
    destruct (documents_by_id st !! VInt i) as [[|old_record]|]; [done| |done].
    destruct (Document_validate _ _) as [doc|]; [|done].
    match goal with
    | |- context [update_indexes ?o ?n ?s1] =>
        match goal with
        | |- context [update_indexes o n ?s2] =>
            lazymatch s1 with s2 => fail | _ => idtac end;
            assert (observably_equal s1 s2) as Halloc
              by (repeat split; simpl; congruence);
            pose proof (update_indexes_observably_equal o n s1 s2 Halloc)
              as [Hr Hs];
            destruct (update_indexes o n s1) as [r st1];
            destruct (update_indexes o n s2) as [r' st1']
        end
    end.
    simpl in *. by subst r'.
Qed.

Lemma serve_observably_equal rqs : ∀ st st',
  observably_equal st st' →
  (serve int_of_str rqs st).1 = (serve int_of_str rqs st').1 ∧
  observably_equal (serve int_of_str rqs st).2 (serve int_of_str rqs st').2.
Proof.
  induction rqs as [|rq rqs IH]; intros st st' Heq; simpl; [done|].
  destruct (handle_observably_equal rq st st' Heq) as [Hr Hs].
  destruct (handle int_of_str rq st) as [r st1].
  destruct (handle int_of_str rq st') as [r' st1'].
  simpl in Hr, Hs. subst r'.
  destruct (IH st1 st1' Hs) as [Hrs Hss].
  destruct (serve int_of_str rqs st1) as [rs st2].
  destruct (serve int_of_str rqs st1') as [rs' st2'].
  simpl in *. by subst rs'.
Qed.

Lemma get_documents_observably_equal status st :
  observably_equal (get_documents int_of_str status st).2 st.
Proof.
  rewrite get_documents_store. repeat split; simpl.
  intros k. symmetry. apply dd_getitem_snd.
Qed.

Lemma get_documents_response status st :
  (get_documents int_of_str status st).1 =
    DocumentsResponse <$>
      validated (validate_documents int_of_str
        (bucket (documents_by_status st) (VStr (status_name status)))).
Proof.
  unfold get_documents. rewrite <-dd_getitem_fst.
  by destruct (dd_getitem _ _).
Qed.

End observation.

(** ** Loading accepts every row *)




(** ** The requests *)

Section requests.

Context (int_of_str : string → option Z).

(** C5: after any load and any requests served since, the keys of
    [documents_by_id] are the id cells of the rows, as the reader gave
    them and never an [int]; so for every id, loaded or not,
    [update_document] raises [KeyError] at its first statement, leaves
    the store as it was, and never reaches the 404 of its guard. *)
Theorem update_document_always_KeyError rows st rqs id document :
  load rows = Ok st →
  let st' := (serve int_of_str rqs st).2 in
  (∀ k, is_Some (documents_by_id st' !! k) →
        (∀ z, k ≠ VInt z) ∧
        ∃ o, o ∈ documents st' ∧ fields o !! "id" = Some k) ∧
  update_document int_of_str id document st' = (Raise (KeyError (VInt id)), st') ∧
  (update_document int_of_str id document st').1 ≠ Raise (HTTPException 404) ∧
  http_status (update_document int_of_str id document st').1 = 500%Z.
Proof.
  intros Hload st'.
  pose proof (load_str_keyed _ _ Hload) as Hkeys.
  pose proof (serve_str_keyed int_of_str rqs st Hkeys) as Hkeys'.
  fold st' in Hkeys'.
  split; [|by rewrite update_document_str_keyed].
  intros k [v Hv]. split.
  - intros z ->. by rewrite Hkeys' in Hv.
  - subst st'. rewrite serve_by_id in Hv by done.
    destruct (serve_fixed int_of_str rqs st) as (-> & _).
    rewrite (load_by_id _ _ k Hload) in Hv.
    destruct (last_with "id" k (documents st)) as [o|] eqn:Ho; [|done].
    exists o. by apply last_with_Some in Ho.
Qed.

(** C8: after any load and any requests served since, [duplicates]
    has a path exactly when the bucket of that path in
    [documents_by_pdf_path] is longer than one, and maps it to that
    very bucket. *)
Theorem duplicates_iff_by_pdf_path rows st rqs p :
  load rows = Ok st →
  let st' := (serve int_of_str rqs st).2 in
  (is_Some (duplicates st' !! p) ↔
     1 < length (bucket (documents_by_pdf_path st') p)) ∧
  (∀ l, duplicates st' !! p = Some l ↔
        documents_by_pdf_path st' !! p = Some l ∧ 1 < length l).
Proof.
  intros Hload st'.
  destruct (serve_fixed int_of_str rqs st) as (_ & Hp & Hdup).
  fold st' in Hp, Hdup. rewrite Hp, Hdup.
  apply load_Ok in Hload as (_ & _ & _ & _ & -> & _).
  split; [|intros l; apply find_duplicates_lookup].
  unfold bucket, is_Some. setoid_rewrite find_duplicates_lookup.
  destruct (documents_by_pdf_path st !! p) as [l|]; simpl.
  - split; [by intros (? & [= <-] & ?)|by exists l].
  - split; [by intros (? & ? & ?)|lia].
Qed.

(** C9 (amended): [get_documents] answers with the documents of the
    status' bucket of [documents_by_status], row by row in the bucket's
    order, exactly when every row of the bucket is a valid [Document];
    otherwise it raises pydantic's [ValidationError], and nothing else.
    A status whose key is absent from the index, or whose bucket is
    empty, answers with the empty list and no exception. *)
Theorem get_documents_answers_valid_bucket s st :
  (∀ docs,
     (get_documents int_of_str s st).1 = Ok (DocumentsResponse docs) ↔
     Forall2 (λ o d, Document_validate int_of_str (fields o) = Some d)
             (bucket (documents_by_status st) (VStr (status_name s))) docs) ∧
  (∀ e,
     (get_documents int_of_str s st).1 = Raise e ↔
     e = ValidationError ∧
     Exists (λ o, Document_validate int_of_str (fields o) = None)
            (bucket (documents_by_status st) (VStr (status_name s)))) ∧
  (documents_by_status st !! VStr (status_name s) = None →
   (get_documents int_of_str s st).1 = Ok (DocumentsResponse [])) ∧
  (bucket (documents_by_status st) (VStr (status_name s)) = [] →
   (get_documents int_of_str s st).1 = Ok (DocumentsResponse [])).
Proof.
  rewrite get_documents_response. unfold validate_documents.
  split_and!.
  - intros docs. rewrite <-mapM_Some.
    destruct (mapM _ _) as [docs'|]; simpl; split; congruence.
  - intros e. rewrite <-mapM_None.
    destruct (mapM _ _) as [docs'|]; simpl; split.
    + done.
    + by intros [_ ?].
    + by intros [= <-].
    + by intros [-> _].
  - unfold bucket. by intros ->.
  - by intros ->.
Qed.

(** C10: the two queries are reads.  [get_duplicate_documents] leaves
    the store as it is; [get_documents] leaves [documents_by_id],
    [documents_by_pdf_path], [duplicates] and the contents of every
    bucket of [documents_by_status] as they are; and any requests
    served afterwards get the answers they would have got without the
    query. *)
Theorem queries_are_reads status st rqs :
  let st1 := (get_documents int_of_str status st).2 in
  let st2 := (get_duplicate_documents int_of_str st).2 in
  (documents_by_id st1 = documents_by_id st ∧
   (∀ k, bucket (documents_by_status st1) k = bucket (documents_by_status st) k) ∧
   documents_by_pdf_path st1 = documents_by_pdf_path st ∧
   duplicates st1 = duplicates st) ∧
  st2 = st ∧
  (serve int_of_str rqs st1).1 = (serve int_of_str rqs st).1 ∧
  (serve int_of_str rqs st2).1 = (serve int_of_str rqs st).1.
Proof.
  intros st1 st2.
  pose proof (get_documents_observably_equal int_of_str status st)
    as Hobs. fold st1 in Hobs.
  split; [|split; [done|split; [|done]]].
  - destruct Hobs as (_ & ? & ? & ? & ? & _). done.
  - by apply serve_observably_equal.
Qed.

End requests.

Section served_buckets.

Context (int_of_str : string → option Z).

Lemma serve_buckets rqs : ∀ st,
  str_keyed st →
  same_buckets (documents_by_status (serve int_of_str rqs st).2)
               (documents_by_status st).
Proof.
  induction rqs as [|rq rqs IH]; intros st Hst; simpl; [done|].
  pose proof (handle_str_keyed int_of_str rq st Hst) as Hrq.
  assert (same_buckets (documents_by_status (handle int_of_str rq st).2)
                       (documents_by_status st)) as Hb.
  { destruct rq as [s| |i d]; simpl.
    - by destruct (get_documents_observably_equal int_of_str s st)
        as (_ & _ & ? & _).
    - done.
    - by rewrite update_document_str_keyed. }
  destruct (handle int_of_str rq st) as [r st1]. specialize (IH st1 Hrq).
  destruct (serve int_of_str rqs st1) as [rs st2]. simpl in *.
  intros k. by rewrite IH.
Qed.

(** Every bucket of [documents_by_status] lists, in the order of the
    file, the rows that were loaded with that status; the requests
    served since have not changed it. *)
Lemma served_bucket_load_order rows st rqs k :
  load rows = Ok st →
  bucket (documents_by_status (serve int_of_str rqs st).2) k =
    filter (λ o, fields o !! "status" = Some k) (read_documents rows).
Proof.
  intros Hload.
  rewrite (serve_buckets rqs st (load_str_keyed _ _ Hload) k).
  rewrite (load_by_status _ _ k Hload).
  by apply load_Ok in Hload as (-> & _).
Qed.

(** While the process serves, every entry of every index is one of the
    row objects of [documents]: the indexes share the loaded rows. *)
Lemma served_indexes_hold_loaded_rows rows st rqs k o :
  load rows = Ok st →
  let st' := (serve int_of_str rqs st).2 in
  (documents_by_id st' !! k = Some (PyDict o) → o ∈ documents st') ∧
  (o ∈ bucket (documents_by_status st') k → o ∈ documents st') ∧
  (o ∈ bucket (documents_by_pdf_path st') k → o ∈ documents st') ∧
  (o ∈ bucket (duplicates st') k → o ∈ documents st').
Proof.
  intros Hload st'.
  pose proof (load_str_keyed _ _ Hload) as Hkeys.
  destruct (serve_fixed int_of_str rqs st) as (Hd & Hp & Hdup).
  fold st' in Hd, Hp, Hdup. rewrite Hd, Hp, Hdup.
  assert (∀ o, o ∈ bucket (documents_by_pdf_path st) k → o ∈ documents st)
    as Hpath.
  { intros o'. rewrite (load_by_pdf_path _ _ k Hload).
    by intros [_ ?]%list_elem_of_filter. }
  repeat split.
  - subst st'. rewrite serve_by_id, (load_by_id _ _ k Hload) by done.
    destruct (last_with "id" k (documents st)) as [o'|] eqn:Ho; [|done].
    intros [= ->]. by apply last_with_Some in Ho as [? _].
  - subst st'. rewrite (served_bucket_load_order _ _ rqs k Hload).
    apply load_Ok in Hload as (-> & _).
    by intros [_ ?]%list_elem_of_filter.
  - apply Hpath.
  - apply load_Ok in Hload as (_ & _ & _ & _ & Hdups & _).
    intros Ho. apply Hpath. revert Ho. unfold bucket. rewrite Hdups.
    destruct (find_duplicates _ !! k) as [l|] eqn:Hl; simpl.
    + apply find_duplicates_lookup in Hl as [-> _]. done.
    + by intros ?%elem_of_nil.
Qed.

(** C1 (the code at the failing input): on the store of the three
    documents, a PATCH for id 99, which no row carries, raises
    [KeyError] at the lookup, which FastAPI answers with a 500, where
    the claim has the 404 of NotFound.  The store is left as it was. *)
Theorem update_document_unknown_id :
  documents_by_id scenario !! VStr "99" = None ∧
  update_document int_of_str 99 (status_set (Some SUCCEEDED)) scenario
    = (Raise (KeyError (VInt 99)), scenario) ∧
  http_status (update_document int_of_str 99 (status_set (Some SUCCEEDED)) scenario).1
    = 500%Z.
Proof. repeat split; reflexivity. Qed.

(** C2 (the code at the failing input): document 1 is loaded with
    status NEEDS_REVIEW; a PATCH of id 1 to SUCCEEDED raises
    [KeyError], and afterwards the document is still in the
    NEEDS_REVIEW bucket, not in the SUCCEEDED one, and the entry of
    [documents_by_id] still has the old status. *)
Theorem update_document_does_not_move :
  let r := update_document int_of_str 1 (status_set (Some SUCCEEDED)) scenario in
  r.1 = Raise (KeyError (VInt 1)) ∧
  bucket (documents_by_status r.2) (VStr "NEEDS_REVIEW") = [doc1] ∧
  bucket (documents_by_status r.2) (VStr "SUCCEEDED") = [doc2; doc3] ∧
  documents_by_id r.2 !! VStr "1" = Some (PyDict doc1) ∧
  documents_by_id r.2 !! VInt 1 = None ∧
  fields doc1 !! "status" = Some (VStr "NEEDS_REVIEW").
Proof. repeat split; reflexivity. Qed.

(** C3 (the code at the failing input): after the PATCH of id 1 to
    SUCCEEDED the requested status is visible through none of the
    indexes: [documents_by_id], [documents_by_status],
    [documents_by_pdf_path] and [duplicates] all still hold the row as
    loaded, with status NEEDS_REVIEW. *)
Theorem update_document_not_visible :
  let r := update_document int_of_str 1 (status_set (Some SUCCEEDED)) scenario in
  r.1 = Raise (KeyError (VInt 1)) ∧
  documents_by_id r.2 !! VStr "1" = Some (PyDict doc1) ∧
  documents_by_status r.2 !! VStr "NEEDS_REVIEW" = Some [doc1] ∧
  documents_by_status r.2 !! VStr "SUCCEEDED" = Some [doc2; doc3] ∧
  documents_by_pdf_path r.2 !! VStr "a.pdf" = Some [doc1; doc2] ∧
  duplicates r.2 !! VStr "a.pdf" = Some [doc1; doc2] ∧
  fields doc1 !! "status" = Some (VStr "NEEDS_REVIEW").
Proof. repeat split; reflexivity. Qed.

(** C4 (the code at the failing input): a PATCH of the loaded id 1
    without a status, and a PATCH of the loaded id 2 to the status it
    has, both raise [KeyError] where the claim has the current
    document returned.  The store, buckets included, is left as it
    was. *)
Theorem update_document_no_change_raises :
  update_document int_of_str 1 status_unset scenario
    = (Raise (KeyError (VInt 1)), scenario) ∧
  update_document int_of_str 2 (status_set (Some SUCCEEDED)) scenario
    = (Raise (KeyError (VInt 2)), scenario) ∧
  fields doc2 !! "status" = Some (VStr "SUCCEEDED").
Proof. repeat split; reflexivity. Qed.

End served_buckets.

(** C7 (the code at the failing input): on the three documents, after
    the PATCH of id 1 to SUCCEEDED has been served, the NEEDS_REVIEW list
    is still the first document and the SUCCEEDED list still the second
    and the third, where the claim has the empty list and the first
    document appended to the other two. *)
Theorem update_document_scenario_lists :
  let st' := (serve decimal [PATCH_documents 1 (status_set (Some SUCCEEDED))] scenario).2 in
  (get_documents decimal NEEDS_REVIEW st').1 =
    Ok (DocumentsResponse [mkDocument 1 "a.pdf" (Some NEEDS_REVIEW)]) ∧
  (get_documents decimal SUCCEEDED st').1 =
    Ok (DocumentsResponse [mkDocument 2 "a.pdf" (Some SUCCEEDED);
                           mkDocument 3 "b.pdf" (Some SUCCEEDED)]).
Proof. split; vm_compute; reflexivity. Qed.

Lemma update_document_always_KeyError_witness :
  load scenario_rows = Ok scenario ∧
  update_document decimal 2 status_unset
    (serve decimal [GET_documents_status NEEDS_REVIEW;
                    PATCH_documents 1 (status_set (Some SUCCEEDED))] scenario).2
  = (Raise (KeyError (VInt 2)),
     (serve decimal [GET_documents_status NEEDS_REVIEW;
                     PATCH_documents 1 (status_set (Some SUCCEEDED))] scenario).2).
Proof.
  split; [vm_compute; reflexivity|].
  refine (proj1 (proj2 (update_document_always_KeyError decimal scenario_rows
    scenario _ 2 status_unset _))).
  vm_compute; reflexivity.
Defined.

Lemma duplicates_iff_by_pdf_path_witness :
  load scenario_rows = Ok scenario ∧
  (is_Some (duplicates scenario !! VStr "a.pdf") ↔
   1 < length (bucket (documents_by_pdf_path scenario) (VStr "a.pdf"))).
Proof.
  split; [vm_compute; reflexivity|].
  refine (proj1 (duplicates_iff_by_pdf_path decimal scenario_rows scenario []
    (VStr "a.pdf") _)).
  vm_compute; reflexivity.
Defined.

Lemma get_documents_answers_valid_bucket_witness :
  (get_documents decimal SUCCEEDED scenario).1 =
    Ok (DocumentsResponse [mkDocument 2 "a.pdf" (Some SUCCEEDED);
                           mkDocument 3 "b.pdf" (Some SUCCEEDED)]).
Proof.
  apply (proj1 (get_documents_answers_valid_bucket decimal SUCCEEDED scenario)).
  vm_compute. repeat constructor.
Defined.

(** C9 (as stated, refuted): the file of the one line
    [seven,c.pdf,SUCCEEDED] loads; the SUCCEEDED bucket then holds that
    row, and [get_documents] for SUCCEEDED raises [ValidationError]
    where the claim has the contents of the bucket returned. *)
Lemma get_documents_raises_on_loaded_row :
  load [csv_row "seven" "c.pdf" "SUCCEEDED"] = Ok malformed_store ∧
  bucket (documents_by_status malformed_store) (VStr "SUCCEEDED")
    = [row_object 0 (csv_row "seven" "c.pdf" "SUCCEEDED")] ∧
  (get_documents decimal SUCCEEDED malformed_store).1 = Raise ValidationError.
Proof. split_and!; vm_compute; reflexivity. Qed.

(** A status that no loaded row has is no key of [documents_by_status];
    reading it answers with the empty list, and leaves the key behind,
    bound to the empty list. *)
Example get_documents_never_populated :
  ∃ st, load [csv_row "2" "a.pdf" "SUCCEEDED"] = Ok st ∧
        documents_by_status st !! VStr "NEEDS_REVIEW" = None ∧
        (get_documents decimal NEEDS_REVIEW st).1 = Ok (DocumentsResponse []) ∧
        documents_by_status (get_documents decimal NEEDS_REVIEW st).2
          !! VStr "NEEDS_REVIEW" = Some [].
Proof. eexists. split; [vm_compute; reflexivity|]. repeat split; reflexivity. Qed.

(** The statements of [update_document] after the lookup, run on a store
    whose [documents_by_id] is keyed by [int] (no load yields one): the
    row is taken out of its old bucket, and a new dict, with a new
    identity and an [int] id, is appended to the new bucket and bound in
    [documents_by_id]; [documents_by_pdf_path] and [duplicates] keep the
    row as loaded. *)
Example update_document_int_keyed :
  update_document decimal 1 (status_set (Some SUCCEEDED)) int_keyed_scenario =
  (Ok (DocumentResponse (mkDocument 1 "a.pdf" (Some SUCCEEDED))),
   Store [doc1; doc2; doc3]
     {[ VInt 1 := PyDict moved_doc1; VInt 2 := PyDict doc2; VInt 3 := PyDict doc3 ]}
     {[ VStr "NEEDS_REVIEW" := []; VStr "SUCCEEDED" := [doc2; doc3; moved_doc1] ]}
     {[ VStr "a.pdf" := [doc1; doc2]; VStr "b.pdf" := [doc3] ]}
     {[ VStr "a.pdf" := [doc1; doc2] ]}
     4).
Proof. vm_compute. reflexivity. Qed.

(** A row whose id is not a number loads, and fails each request that
    lists it. *)
Example malformed_row_fails_per_request :
  ∃ st, load [csv_row "seven" "c.pdf" "SUCCEEDED"] = Ok st ∧
        (get_documents decimal SUCCEEDED st).1 = Raise ValidationError ∧
        (get_documents decimal NEEDS_REVIEW st).1 = Ok (DocumentsResponse []).
Proof. eexists. split; [vm_compute; reflexivity|]. split; vm_compute; reflexivity. Qed.

(** ** A column that is missing *)

Lemma index_by_id_missing docs : ∀ m,
  Exists (λ o, fields o !! "id" = None) docs →
  index_by_id docs m = Raise (KeyError (VStr "id")).
Proof.
  induction docs as [|doc docs IH]; intros m Hex; [by apply Exists_nil in Hex|].
  simpl. unfold getitem at 1.
  destruct (fields doc !! "id") as [k|] eqn:Hk; simpl; [|done].
  apply Exists_cons in Hex as [Hdoc|Hrest]; [congruence|by apply IH].
Qed.

Lemma group_by_missing field docs : ∀ m,
  Exists (λ o, fields o !! field = None) docs →
  group_by field docs m = Raise (KeyError (VStr field)).
Proof.
  induction docs as [|doc docs IH]; intros m Hex; [by apply Exists_nil in Hex|].
  simpl. unfold getitem at 1.
  destruct (fields doc !! field) as [k|] eqn:Hk; simpl; [|done].
  apply Exists_cons in Hex as [Hdoc|Hrest]; [congruence|by apply IH].
Qed.

Lemma read_documents_lacks rows field :
  Exists (λ r, r !! field = None) rows →
  Exists (λ o, fields o !! field = None) (read_documents rows).
Proof.
  rewrite !Exists_exists. intros (r & Hr & Hnone).
  apply list_elem_of_lookup in Hr as [i Hi].
  exists (row_object i r). split.
  - by apply elem_of_lookup_imap_2.
  - by rewrite fields_row_object, Hnone.
Qed.

Lemma read_documents_has rows field :
  Forall (λ r, is_Some (r !! field)) rows →
  Forall (λ o, is_Some (fields o !! field)) (read_documents rows).
Proof.
  rewrite !Forall_forall. intros Hrows o (r & Hr & ->)%read_documents_fields.
  rewrite lookup_fmap. destruct (Hrows r Hr) as [c ->]. by eexists.
Qed.

(** The load stops with [KeyError] on the first of the columns id,
    status, pdf_path that some row lacks: the three indexes are built
    one after the other, each over all the rows. *)
Theorem load_missing_column rows :
  (Exists (λ r, r !! "id" = None) rows →
   load rows = Raise (KeyError (VStr "id"))) ∧
  (Forall (λ r, is_Some (r !! "id")) rows →
   Exists (λ r, r !! "status" = None) rows →
   load rows = Raise (KeyError (VStr "status"))) ∧
  (Forall (λ r, is_Some (r !! "id")) rows →
   Forall (λ r, is_Some (r !! "status")) rows →
   Exists (λ r, r !! "pdf_path" = None) rows →
   load rows = Raise (KeyError (VStr "pdf_path"))).
Proof.
  unfold load. repeat split.
  - intros Hid%read_documents_lacks.
    by rewrite (index_by_id_missing _ ∅ Hid).
  - intros Hid%read_documents_has Hst%read_documents_lacks.
    destruct (index_by_id_total _ ∅ Hid) as [by_id ->]. simpl.
    by rewrite (group_by_missing _ _ ∅ Hst).
  - intros Hid%read_documents_has Hst%read_documents_has
           Hp%read_documents_lacks.
    destruct (index_by_id_total _ ∅ Hid) as [by_id ->].
    destruct (group_by_total _ _ ∅ Hst) as [by_status ->]. simpl.
    by rewrite (group_by_missing _ _ ∅ Hp).
Qed.

Lemma load_missing_column_witness :
  load [csv_row "1" "a.pdf" "SUCCEEDED"; {[ "id" := Some "2"; "pdf_path" := Some "b.pdf" ]}]
  = Raise (KeyError (VStr "status")).
Proof.
  refine (proj1 (proj2 (load_missing_column _)) _ _).
  - repeat constructor; vm_compute; eexists; reflexivity.
  - apply Exists_cons_tl, Exists_cons_hd. vm_compute. reflexivity.
Defined.

(** ** What the served process keeps *)

Lemma observably_equal_trans st1 st2 st3 :
  observably_equal st1 st2 → observably_equal st2 st3 →
  observably_equal st1 st3.
Proof.
  intros (? & ? & Hb & ? & ? & ?) (? & ? & Hb' & ? & ? & ?).
  unfold observably_equal. split_and!; try congruence.
  all: intros k; by rewrite Hb, Hb'.
Qed.

Lemma set_by_status_same st : set_by_status st (documents_by_status st) = st.
Proof. by destruct st. Qed.

Section served.

Context (int_of_str : string → option Z).

Lemma serve_str_keyed_observably_equal rqs : ∀ st,
  str_keyed st → observably_equal (serve int_of_str rqs st).2 st.
Proof.
  induction rqs as [|rq rqs IH]; intros st Hst; simpl.
  - apply observably_equal_refl.
  - pose proof (handle_str_keyed int_of_str rq st Hst) as Hrq.
    assert (observably_equal (handle int_of_str rq st).2 st) as Hobs.
    { destruct rq as [s| |i d]; simpl.
      - apply get_documents_observably_equal.
      - apply observably_equal_refl.
      - rewrite update_document_str_keyed by done.
        apply observably_equal_refl. }
    destruct (handle int_of_str rq st) as [r st1]. specialize (IH st1 Hrq).
    destruct (serve int_of_str rqs st1) as [rs st2]. simpl in *.
    by eapply observably_equal_trans.
Qed.

(** Once loaded the registry never changes what it answers: whatever
    requests were served before, PATCHes included, a sequence of
    requests gets the answers it would get right after the load. *)
Theorem served_answers_never_change rows st before rqs :
  load rows = Ok st →
  (serve int_of_str rqs (serve int_of_str before st).2).1 =
  (serve int_of_str rqs st).1.
Proof.
  intros Hload%load_str_keyed.
  by apply serve_observably_equal, serve_str_keyed_observably_equal.
Qed.

(** Asking for the same status again gives the same answer and leaves
    the store as the first call left it: the key that the first call
    may add to [documents_by_status] is added once. *)
Theorem get_documents_twice status st :
  get_documents int_of_str status (get_documents int_of_str status st).2 =
  ((get_documents int_of_str status st).1, (get_documents int_of_str status st).2).
Proof.
  destruct st as [docs by_id by_status by_path dups n].
  unfold get_documents, dd_getitem, set_by_status. simpl.
  destruct (by_status !! VStr (status_name status)) as [l|] eqn:Hl; simpl.
  - by rewrite Hl.
  - by rewrite lookup_insert_eq.
Qed.

(** No handler, [update_document] included, ever assigns to
    [documents], [documents_by_pdf_path] or [duplicates]: on any store
    and after any requests they are what they were. *)
Theorem handlers_keep_paths rqs st :
  documents (serve int_of_str rqs st).2 = documents st ∧
  documents_by_pdf_path (serve int_of_str rqs st).2 = documents_by_pdf_path st ∧
  duplicates (serve int_of_str rqs st).2 = duplicates st.
Proof. apply serve_fixed. Qed.

End served.

Lemma served_answers_never_change_witness :
  (serve decimal [GET_documents_status SUCCEEDED]
     (serve decimal [PATCH_documents 2 (status_set (Some NEEDS_REVIEW));
                     GET_documents_duplicates] scenario).2).1 =
  (serve decimal [GET_documents_status SUCCEEDED] scenario).1.
Proof.
  apply (served_answers_never_change decimal scenario_rows).
  vm_compute; reflexivity.
Defined.

(** ** What the lists hold *)

Lemma status_name_inj s1 s2 : status_name s1 = status_name s2 → s1 = s2.
Proof. by destruct s1, s2. Qed.

Section lists.

Context (int_of_str : string → option Z).

Lemma validate_status_Some v s :
  validate_status v = Some s ↔ v = Some (VStr (status_name s)).
Proof.
  unfold validate_status. split.
  - destruct v as [[| str |]|]; try done.
    repeat case_decide; intros [= <-]; by subst.
  - intros ->. by destruct s.
Qed.

Lemma Document_validate_Some d doc :
  Document_validate int_of_str d = Some doc →
  validate_int int_of_str (d !! "id") = Some (id doc) ∧
  d !! "pdf_path" = Some (VStr (pdf_path doc)) ∧
  ∃ s, status doc = Some s ∧ d !! "status" = Some (VStr (status_name s)).
Proof.
  unfold Document_validate. intros Hdoc.
  destruct (validate_int int_of_str (d !! "id")) as [i|]; [|done].
  destruct (validate_str (d !! "pdf_path")) as [p|] eqn:Hp; [|done].
  destruct (validate_status (d !! "status")) as [s|] eqn:Hs; [|done].
  simpl in Hdoc. injection Hdoc as <-. simpl.
  apply validate_status_Some in Hs.
  split; [done|]. split; [|by exists s].
  unfold validate_str in Hp. by destruct (d !! "pdf_path") as [[| |]|]; simplify_eq.
Qed.

(** A status bucket holds, in the order of the file, just the loaded
    rows with that status cell, whatever was served since; so every
    loaded row is in the bucket of its status and in no other. *)
Theorem status_buckets_partition rows st rqs k o :
  load rows = Ok st →
  let st' := (serve int_of_str rqs st).2 in
  bucket (documents_by_status st') k =
    filter (λ o, fields o !! "status" = Some k) (documents st') ∧
  (o ∈ bucket (documents_by_status st') k ↔
   o ∈ documents st' ∧ fields o !! "status" = Some k).
Proof.
  intros Hload st'.
  assert (bucket (documents_by_status st') k =
          filter (λ o, fields o !! "status" = Some k) (documents st')) as Hb.
  { subst st'. destruct (serve_fixed int_of_str rqs st) as (-> & _).
    rewrite (served_bucket_load_order int_of_str _ _ rqs k Hload).
    by apply load_Ok in Hload as (-> & _). }
  split; [done|]. rewrite Hb, list_elem_of_filter. tauto.
Qed.

Lemma served_path_bucket rows st rqs k :
  load rows = Ok st →
  bucket (documents_by_pdf_path (serve int_of_str rqs st).2) k =
    filter (λ o, fields o !! "pdf_path" = Some k)
           (documents (serve int_of_str rqs st).2).
Proof.
  intros Hload. destruct (serve_fixed int_of_str rqs st) as (-> & -> & _).
  by apply load_by_pdf_path with rows.
Qed.

(** The same for the path buckets. *)
Theorem path_buckets_partition rows st rqs k o :
  load rows = Ok st →
  let st' := (serve int_of_str rqs st).2 in
  bucket (documents_by_pdf_path st') k =
    filter (λ o, fields o !! "pdf_path" = Some k) (documents st') ∧
  (o ∈ bucket (documents_by_pdf_path st') k ↔
   o ∈ documents st' ∧ fields o !! "pdf_path" = Some k).
Proof.
  intros Hload st'.
  pose proof (served_path_bucket rows st rqs k Hload) as Hb. fold st' in Hb.
  split; [done|]. rewrite Hb, list_elem_of_filter. tauto.
Qed.

Lemma served_duplicates_lookup rows st rqs p l :
  load rows = Ok st →
  duplicates (serve int_of_str rqs st).2 !! p = Some l ↔
  l = filter (λ o, fields o !! "pdf_path" = Some p)
             (documents (serve int_of_str rqs st).2) ∧
  1 < length l.
Proof.
  intros Hload.
  pose proof (served_path_bucket rows st rqs p Hload) as Hb.
  destruct (serve_fixed int_of_str rqs st) as (_ & Hp & Hdup).
  rewrite Hdup.
  apply load_Ok in Hload as (_ & _ & _ & _ & -> & _).
  rewrite find_duplicates_lookup. rewrite <-Hb, Hp. unfold bucket.
  destruct (documents_by_pdf_path st !! p) as [l'|]; simpl.
  - split; [by intros [[= ->] ?]|by intros [-> ?]].
  - split; [by intros [? ?]|intros [-> Hlen]; simpl in Hlen; lia].
Qed.

(** [duplicates] maps a path to a list exactly when that list is the
    loaded rows with this path cell, in file order, and there are at
    least two of them. *)
Theorem duplicates_are_shared_paths rows st rqs p l :
  load rows = Ok st →
  let st' := (serve int_of_str rqs st).2 in
  duplicates st' !! p = Some l ↔
  l = filter (λ o, fields o !! "pdf_path" = Some p) (documents st') ∧
  1 < length l.
Proof. intros Hload st'. by apply served_duplicates_lookup with rows. Qed.

Lemma validated_rows_status s l docs :
  Forall2 (λ o d, Document_validate int_of_str (fields o) = Some d) l docs →
  Forall (λ o, fields o !! "status" = Some (VStr (status_name s))) l →
  Forall (λ d, status d = Some s) docs.
Proof.
  induction 1 as [|o d l docs Hod _ IH]; intros Hall; [done|].
  apply Forall_cons in Hall as [Ho Hall].
  constructor; [|by apply IH].
  apply Document_validate_Some in Hod as (_ & _ & s' & -> & Hs').
  rewrite Ho in Hs'. injection Hs' as Hs'%status_name_inj. by subst.
Qed.

(** After a load, every document that [get_documents] lists has the
    status that was asked for, and there is one for each loaded row
    with that status. *)
Theorem get_documents_status_matches rows st rqs s docs :
  load rows = Ok st →
  (get_documents int_of_str s (serve int_of_str rqs st).2).1
    = Ok (DocumentsResponse docs) →
  Forall (λ d, status d = Some s) docs ∧
  length docs =
    length (filter (λ o, fields o !! "status" = Some (VStr (status_name s)))
                   (read_documents rows)).
Proof.
  intros Hload. rewrite get_documents_response.
  rewrite (served_bucket_load_order int_of_str _ _ rqs _ Hload).
  unfold validate_documents.
  destruct (mapM _ _) as [docs'|] eqn:Hm; [|done].
  simpl. intros [= <-]. apply mapM_Some in Hm.
  split; [|by apply Forall2_length in Hm].
  apply (validated_rows_status s _ _ Hm).
  apply Forall_forall. by intros o [? _]%list_elem_of_filter.
Qed.

(** On any store, [get_documents] raises nothing but pydantic's
    [ValidationError], and raises it exactly when some row of the
    bucket is no valid [Document]. *)
Theorem get_documents_raises s st e :
  (get_documents int_of_str s st).1 = Raise e ↔
  e = ValidationError ∧
  Exists (λ o, Document_validate int_of_str (fields o) = None)
         (bucket (documents_by_status st) (VStr (status_name s))).
Proof.
  rewrite get_documents_response. unfold validate_documents.
  rewrite <-mapM_None.
  destruct (mapM _ _) as [docs|]; simpl; split.
  - done.
  - by intros [_ ?].
  - by intros [= <-].
  - by intros [-> _].
Qed.

End lists.

(** ** The duplicates answer *)

Section groups.

Context (int_of_str : string → option Z).

Lemma validate_group_Some k l s docs :
  validate_group int_of_str (k, l) = Some (s, docs) ↔
  k = VStr s ∧ validate_documents int_of_str l = Some docs.
Proof.
  unfold validate_group. simpl.
  destruct k as [|s'|z]; simpl; try (split; [done|by intros [? _]]).
  destruct (validate_documents int_of_str l) as [docs'|]; simpl;
    split; try done; try (by intros [_ ?]).
  - by intros [= -> ->].
  - by intros [[= ->] [= ->]].
Qed.

Lemma validate_group_None k l :
  validate_group int_of_str (k, l) = None ↔
  validate_str (Some k) = None ∨ validate_documents int_of_str l = None.
Proof.
  unfold validate_group. simpl.
  destruct k as [|s|z]; simpl; try (split; [by left|done]).
  destruct (validate_documents int_of_str l) as [docs|]; simpl.
  - split; [done|by intros [|]].
  - split; [by right|done].
Qed.

Lemma validated_groups_keys kvs gl :
  Forall2 (λ kv g, validate_group int_of_str kv = Some g) kvs gl →
  kvs.*1 = VStr <$> gl.*1.
Proof.
  induction 1 as [|[k l] [s docs] kvs gl Hkv _ IH]; [done|].
  apply validate_group_Some in Hkv as [-> _]. rewrite !fmap_cons. by f_equal.
Qed.

Lemma validated_groups_elem kvs gl :
  Forall2 (λ kv g, validate_group int_of_str kv = Some g) kvs gl →
  ∀ s docs, (s, docs) ∈ gl ↔
            ∃ l, (VStr s, l) ∈ kvs ∧ validate_documents int_of_str l = Some docs.
Proof.
  induction 1 as [|[k l0] [s0 docs0] kvs gl Hkv _ IH]; intros s docs.
  - split; [by intros ?%elem_of_nil|by intros (? & ?%elem_of_nil & _)].
  - apply validate_group_Some in Hkv as [-> Hl0].
    rewrite elem_of_cons, IH. split.
    + intros [[= -> ->]|(l & Hl & Hv)].
      * exists l0. split; [left|done].
      * exists l. split; [by right|done].
    + intros (l & [[= -> ->]|Hl]%elem_of_cons & Hv).
      * left. congruence.
      * right. by exists l.
Qed.

Lemma validate_groups_lookup m g :
  validate_groups int_of_str m = Some g →
  ∀ s docs, g !! s = Some docs ↔
            ∃ l, m !! VStr s = Some l ∧ validate_documents int_of_str l = Some docs.
Proof.
  unfold validate_groups.
  destruct (mapM _ _) as [gl|] eqn:Hm; [|done].
  simpl. intros [= <-] s docs. apply mapM_Some in Hm.
  assert (NoDup gl.*1) as Hnodup.
  { apply (NoDup_fmap_1 VStr). rewrite <-(validated_groups_keys _ _ Hm).
    apply NoDup_fst_map_to_list. }
  rewrite <-elem_of_list_to_map by done.
  rewrite (validated_groups_elem _ _ Hm).
  by setoid_rewrite elem_of_map_to_list.
Qed.

Lemma validate_groups_None m :
  validate_groups int_of_str m = None ↔
  ∃ k l, m !! k = Some l ∧
         (validate_str (Some k) = None ∨ validate_documents int_of_str l = None).
Proof.
  unfold validate_groups. rewrite fmap_None, mapM_None, Exists_exists.
  split.
  - intros ([k l] & Hkl%elem_of_map_to_list & Hnone%validate_group_None).
    by exists k, l.
  - intros (k & l & Hkl & Hnone). exists (k, l).
    split; [by apply elem_of_map_to_list|by apply validate_group_None].
Qed.

Lemma get_duplicate_documents_Ok st g p docs :
  (get_duplicate_documents int_of_str st).1 = Ok (GroupedDocumentsResponse g) →
  g !! p = Some docs ↔
  ∃ l, duplicates st !! VStr p = Some l ∧
       Forall2 (λ o d, Document_validate int_of_str (fields o) = Some d) l docs.
Proof.
  unfold get_duplicate_documents. simpl.
  destruct (validate_groups int_of_str (duplicates st)) as [g'|] eqn:Hg; [|done].
  simpl. intros [= <-].
  rewrite (validate_groups_lookup _ _ Hg). unfold validate_documents.
  by setoid_rewrite mapM_Some.
Qed.

(** When [get_duplicate_documents] answers, its groups are those of
    [duplicates], read as documents: a path has a group exactly when
    [duplicates] has a list under that path as a [str], and the group is
    that list validated, in the same order. *)
Theorem get_duplicate_documents_groups st g p docs :
  (get_duplicate_documents int_of_str st).1 = Ok (GroupedDocumentsResponse g) →
  g !! p = Some docs ↔
  ∃ l, duplicates st !! VStr p = Some l ∧
       Forall2 (λ o d, Document_validate int_of_str (fields o) = Some d) l docs.
Proof. apply get_duplicate_documents_Ok. Qed.

(** [get_duplicate_documents] raises nothing but [ValidationError], and
    raises it exactly when [duplicates] has a key that is no [str] (the
    [None] of two short lines without a path) or a row that is no valid
    [Document]. *)
Theorem get_duplicate_documents_raises st e :
  (get_duplicate_documents int_of_str st).1 = Raise e ↔
  e = ValidationError ∧
  ∃ k l, duplicates st !! k = Some l ∧
         ((∀ s, k ≠ VStr s) ∨
          Exists (λ o, Document_validate int_of_str (fields o) = None) l).
Proof.
  unfold get_duplicate_documents. simpl.
  assert (∀ k, validate_str (Some k) = None ↔ ∀ s, k ≠ VStr s) as Hstr.
  { intros [|s|z]; simpl; split; try done. intros H. by destruct (H s). }
  destruct (validate_groups int_of_str (duplicates st)) as [g|] eqn:Hg; simpl.
  - split; [done|]. intros (_ & k & l & Hkl & Hbad).
    assert (validate_groups int_of_str (duplicates st) = None) as Hnone;
      [|congruence].
    apply validate_groups_None. exists k, l. split; [done|].
    destruct Hbad as [Hk|Hl]; [left; by apply Hstr|right; by apply mapM_None].
  - apply validate_groups_None in Hg as (k & l & Hkl & Hbad).
    split; [|by intros [-> _]]. intros [= <-]. split; [done|].
    exists k, l. split; [done|].
    destruct Hbad as [Hk|Hl]; [left; by apply Hstr|right; by apply mapM_None].
Qed.

(** After a load, every group that [get_duplicate_documents] lists has
    at least two documents, all with the path the group is filed under,
    one for each loaded row with that path. *)
Theorem get_duplicate_documents_share_path rows st rqs g p docs :
  load rows = Ok st →
  (get_duplicate_documents int_of_str (serve int_of_str rqs st).2).1
    = Ok (GroupedDocumentsResponse g) →
  g !! p = Some docs →
  1 < length docs ∧
  Forall (λ d, pdf_path d = p) docs ∧
  length docs =
    length (filter (λ o, fields o !! "pdf_path" = Some (VStr p)) (read_documents rows)).
Proof.
  intros Hload Hg Hp.
  apply (get_duplicate_documents_Ok _ _ _ _ Hg) in Hp as (l & Hl & Hdocs).
  apply (served_duplicates_lookup int_of_str _ _ rqs _ _ Hload) in Hl
    as [Hl Hlen].
  destruct (serve_fixed int_of_str rqs st) as (Hd & _). rewrite Hd in Hl.
  pose proof Hload as (Hrows & _)%load_Ok. rewrite Hrows in Hl.
  rewrite <-Hl, <-(Forall2_length _ _ _ Hdocs). split; [done|]. split; [|done].
  assert (Forall (λ o, fields o !! "pdf_path" = Some (VStr p)) l) as Hall.
  { rewrite Hl. apply Forall_forall. by intros o [? _]%list_elem_of_filter. }
  clear Hl Hlen. induction Hdocs as [|o d l docs Hod _ IH]; [done|].
  apply Forall_cons in Hall as [Ho Hall]. constructor; [|by apply IH].
  apply Document_validate_Some in Hod as (_ & Hpath & _).
  rewrite Ho in Hpath. by injection Hpath as ->.
Qed.

End groups.

(** ** Looking a row up by its id *)

Lemma last_with_unique field k docs o :
  NoDup ((λ o, fields o !! field) <$> docs) →
  o ∈ docs → fields o !! field = Some k →
  last_with field k docs = Some o.
Proof.
  induction docs as [|doc docs IH]; intros Hnd Ho Hk; [by apply elem_of_nil in Ho|].
  rewrite fmap_cons in Hnd. apply NoDup_cons in Hnd as [Hdoc Hnd].
  rewrite last_with_cons.
  apply elem_of_cons in Ho as [->|Ho].
  - rewrite last_with_None, decide_True; [done..|].
    apply Forall_forall. intros o' Ho' Hk'. apply Hdoc.
    rewrite Hk, <-Hk'. by apply (list_elem_of_fmap_2 (λ o, fields o !! field)).
  - by rewrite (IH Hnd Ho Hk).
Qed.

Section lookups.

Context (int_of_str : string → option Z).

(** When no two rows have the same id cell, every loaded row is what
    [documents_by_id] holds under its own id cell (a [str], or [None]
    for a line too short to have one), whatever was served since. *)
Theorem unique_ids_indexed rows st rqs o :
  load rows = Ok st →
  NoDup ((λ o, fields o !! "id") <$> documents st) →
  o ∈ documents st →
  ∃ k, fields o !! "id" = Some k ∧ (∀ z, k ≠ VInt z) ∧
       documents_by_id (serve int_of_str rqs st).2 !! k = Some (PyDict o).
Proof.
  intros Hload Hnd Ho.
  rewrite serve_by_id by by eapply load_str_keyed.
  destruct (fields o !! "id") as [k|] eqn:Hk.
  - exists k. split; [done|]. split.
    + intros z ->. apply load_Ok in Hload as (Hd & _). rewrite Hd in Ho.
      pose proof (read_documents_no_int rows "id" z) as Hno.
      rewrite Forall_forall in Hno. by apply (Hno o Ho).
    + rewrite (load_by_id _ _ k Hload).
      by rewrite (last_with_unique _ _ _ _ Hnd Ho Hk).
  - apply load_Ok in Hload as (Hd & Hid & _). rewrite Hd in Ho.
    rewrite index_by_id_missing in Hid; [done|].
    apply Exists_exists. by exists o.
Qed.

(** ** A record written by [update_document] *)

Lemma lookup_model_dump d :
  model_dump d !! "id" = Some (VInt (id d)) ∧
  model_dump d !! "pdf_path" = Some (VStr (pdf_path d)) ∧
  model_dump d !! "status" = Some (dump_status (status d)).
Proof. unfold model_dump. by simplify_map_eq. Qed.

(** The dict that [update_document] dumps reads back as the document it
    was dumped from when the status is one of the two names; the dict
    of a document whose status was patched to [null] is no valid
    [Document] any more. *)
Theorem model_dump_reads_back i p s :
  Document_validate int_of_str (model_dump (mkDocument i p (Some s)))
    = Some (mkDocument i p (Some s)) ∧
  Document_validate int_of_str (model_dump (mkDocument i p None)) = None.
Proof.
  unfold Document_validate.
  split.
  - destruct (lookup_model_dump (mkDocument i p (Some s))) as (-> & -> & ->).
    by destruct s.
  - by destruct (lookup_model_dump (mkDocument i p None)) as (-> & -> & ->).
Qed.

End lookups.

(** ** [update_document] past its lookup *)

Section update.

Context (int_of_str : string → option Z).

(** What [update_indexes] does when the old record is in its bucket. *)
Lemma update_indexes_moves old_record n d st old_status l' :
  fields old_record !! "status" = Some old_status →
  list_remove_first old_record (bucket (documents_by_status st) old_status)
    = Some l' →
  let new_record := Obj n (model_dump d) in
  let r := update_indexes old_record new_record st in
  r.1 = Ok () ∧
  documents_by_id r.2 = <[VInt (id d) := PyDict new_record]> (documents_by_id st) ∧
  next_oid r.2 = next_oid st ∧
  ∀ k, bucket (documents_by_status r.2) k =
       (if decide (k = old_status) then l'
        else bucket (documents_by_status st) k)
       ++ (if decide (k = dump_status (status d)) then [new_record] else []).
Proof.
  intros Hold Hrm new_record. unfold update_indexes.
  apply getitem_Ok in Hold. rewrite Hold.
  pose proof (dd_getitem_fst (documents_by_status st) old_status) as Hl.
  pose proof (dd_getitem_snd (documents_by_status st) old_status) as Hm.
  destruct (dd_getitem (documents_by_status st) old_status) as [l m1].
  simpl in Hl, Hm. subst l. rewrite Hrm.
  destruct (lookup_model_dump d) as (Hi & _ & Hs).
  assert (getitem new_record "status" = Ok (dump_status (status d))) as ->
    by by apply getitem_Ok.
  assert (getitem new_record "id" = Ok (VInt (id d))) as ->
    by by apply getitem_Ok.
  simpl. split; [done|]. split; [done|]. split; [done|].
  intros k. rewrite bucket_dd_append, bucket_insert, <-(Hm k).
  repeat case_decide; subst; rewrite ?app_nil_r; congruence.
Qed.

(** On a store in which [documents_by_id] has the [int] id as a key
    (one that [load] does not build), with the row valid and still in
    the bucket of its status: the answer is the row's document with the
    patch applied; a new dict, dumped from it, is bound under the
    document's id; the first row equal to the old one leaves the old
    bucket and the new dict goes to the end of the bucket of the new
    status, so that a patch that changes nothing still moves the
    document to the end of its bucket. *)
Theorem update_document_moves i document st old_record doc l' :
  documents_by_id st !! VInt i = Some (PyDict old_record) →
  Document_validate int_of_str (fields old_record) = Some doc →
  list_remove_first old_record
    (bucket (documents_by_status st) (dump_status (status doc))) = Some l' →
  let updated := model_copy doc document in
  let new_record := Obj (next_oid st) (model_dump updated) in
  let r := update_document int_of_str i document st in
  r.1 = Ok (DocumentResponse updated) ∧
  id updated = id doc ∧ pdf_path updated = pdf_path doc ∧
  documents_by_id r.2 =
    <[VInt (id doc) := PyDict new_record]> (documents_by_id st) ∧
  ∀ k, bucket (documents_by_status r.2) k =
       (if decide (k = dump_status (status doc)) then l'
        else bucket (documents_by_status st) k)
       ++ (if decide (k = dump_status (status updated)) then [new_record] else []).
Proof.
  intros Hid Hdoc Hrm updated new_record.
  assert (id updated = id doc ∧ pdf_path updated = pdf_path doc) as [Hi Hp]
    by by destruct document.
  pose proof Hdoc as (_ & _ & s & Hs & Hold)%Document_validate_Some.
  assert (fields old_record !! "status" = Some (dump_status (status doc)))
    as Hold' by by rewrite Hs.
  unfold update_document, new_dict. rewrite Hid, Hdoc. fold updated new_record.
  set (st1 := Store _ _ _ _ _ _).
  destruct (update_indexes_moves old_record (next_oid st) updated st1
              _ l' Hold' Hrm) as (Hr & Hby_id & _ & Hb).
  fold new_record in Hr, Hby_id, Hb.
  destruct (update_indexes old_record new_record st1) as [r1 st2].
  simpl in Hr, Hby_id, Hb. subst r1. simpl.
  rewrite Hby_id, Hi. done.
Qed.

Lemma update_indexes_not_found old_record new_record st old_status :
  fields old_record !! "status" = Some old_status →
  list_remove_first old_record (bucket (documents_by_status st) old_status)
    = None →
  update_indexes old_record new_record st =
    (Raise ValueError,
     set_by_status st (dd_getitem (documents_by_status st) old_status).2).
Proof.
  intros Hold%getitem_Ok Hrm. unfold update_indexes. rewrite Hold.
  pose proof (dd_getitem_fst (documents_by_status st) old_status) as Hl.
  destruct (dd_getitem (documents_by_status st) old_status) as [l m1].
  simpl in Hl. subst l. by rewrite Hrm.
Qed.

(** On any store, when [update_document] raises, the exception is the
    [KeyError] of its lookup, the 404, pydantic's [ValidationError] or
    the [ValueError] of [list.remove], and no index has changed what it
    holds: nothing is left half moved. *)
Theorem update_document_raises_keeps_indexes i document st e :
  (update_document int_of_str i document st).1 = Raise e →
  let st' := (update_document int_of_str i document st).2 in
  (e = KeyError (VInt i) ∨ e = HTTPException 404 ∨
   e = ValidationError ∨ e = ValueError) ∧
  documents st' = documents st ∧
  documents_by_id st' = documents_by_id st ∧
  (∀ k, bucket (documents_by_status st') k = bucket (documents_by_status st) k) ∧
  documents_by_pdf_path st' = documents_by_pdf_path st ∧
  duplicates st' = duplicates st.
Proof.
  unfold update_document, new_dict.
  destruct (documents_by_id st !! VInt i) as [[|old_record]|] eqn:Hid.
  - intros [= <-]. cbn [snd]. split_and!; auto.
  - destruct (Document_validate int_of_str (fields old_record)) as [doc|] eqn:Hdoc;
      [|intros [= <-]; cbn [snd]; split_and!; auto].
    pose proof Hdoc as (_ & _ & s & Hs & Hold)%Document_validate_Some.
    assert (fields old_record !! "status" = Some (dump_status (status doc)))
      as Hold' by by rewrite Hs.
    set (new_record := Obj (next_oid st) _).
    set (st1 := Store _ _ _ _ _ _).
    destruct (list_remove_first old_record
                (bucket (documents_by_status st) (dump_status (status doc))))
      as [l'|] eqn:Hrm.
    + destruct (update_indexes_moves old_record (next_oid st)
                  (model_copy doc document) st1 _ l' Hold' Hrm) as (Hr & _).
      fold new_record in Hr.
      destruct (update_indexes old_record new_record st1) as [r1 st2].
      simpl in Hr. subst r1. intros [=].
    + rewrite (update_indexes_not_found old_record new_record st1 _ Hold' Hrm).
      intros [= <-]. cbn [snd]. split_and!; auto.
      intros k. symmetry.
      apply (dd_getitem_snd (documents_by_status st) (dump_status (status doc))).
  - intros [= <-]. cbn [snd]. split_and!; auto.
Qed.

End update.

(** ** The properties above on the sample inputs *)

Lemma pathless_load : load pathless_rows = Ok pathless_store.
Proof. vm_compute. reflexivity. Qed.

Lemma malformed_load :
  load [csv_row "seven" "c.pdf" "SUCCEEDED"] = Ok malformed_store.
Proof. vm_compute. reflexivity. Qed.

Lemma status_buckets_partition_witness :
  bucket (documents_by_status
            (serve decimal [PATCH_documents 1 (status_set (Some SUCCEEDED))] scenario).2)
         (VStr "SUCCEEDED") =
  filter (λ o, fields o !! "status" = Some (VStr "SUCCEEDED"))
         (documents (serve decimal [PATCH_documents 1 (status_set (Some SUCCEEDED))] scenario).2).
Proof.
  refine (proj1 (status_buckets_partition decimal scenario_rows scenario
                   _ (VStr "SUCCEEDED") doc1 _)).
  vm_compute; reflexivity.
Defined.

Lemma path_buckets_partition_witness :
  bucket (documents_by_pdf_path (serve decimal [] scenario).2) (VStr "a.pdf") =
  filter (λ o, fields o !! "pdf_path" = Some (VStr "a.pdf"))
         (documents (serve decimal [] scenario).2).
Proof.
  refine (proj1 (path_buckets_partition decimal scenario_rows scenario
                   [] (VStr "a.pdf") doc1 _)).
  vm_compute; reflexivity.
Defined.

Lemma duplicates_are_shared_paths_witness :
  duplicates (serve decimal [] scenario).2 !! VStr "a.pdf" = Some [doc1; doc2] ↔
  [doc1; doc2] = filter (λ o, fields o !! "pdf_path" = Some (VStr "a.pdf"))
                        (documents (serve decimal [] scenario).2) ∧
  1 < length [doc1; doc2].
Proof.
  refine (duplicates_are_shared_paths decimal scenario_rows scenario []
            (VStr "a.pdf") [doc1; doc2] _).
  vm_compute; reflexivity.
Defined.

Lemma get_documents_status_matches_witness :
  Forall (λ d, status d = Some SUCCEEDED)
         [mkDocument 2 "a.pdf" (Some SUCCEEDED); mkDocument 3 "b.pdf" (Some SUCCEEDED)].
Proof.
  refine (proj1 (get_documents_status_matches decimal scenario_rows scenario []
                   SUCCEEDED _ _ _)).
  - vm_compute; reflexivity.
  - vm_compute; reflexivity.
Defined.

Lemma get_documents_raises_witness :
  (get_documents decimal SUCCEEDED malformed_store).1 = Raise ValidationError.
Proof.
  apply (get_documents_raises decimal SUCCEEDED malformed_store ValidationError).
  split; [reflexivity|]. apply Exists_cons_hd. vm_compute. reflexivity.
Defined.

Lemma get_duplicate_documents_groups_witness :
  ∃ l, duplicates scenario !! VStr "a.pdf" = Some l ∧
       Forall2 (λ o d, Document_validate decimal (fields o) = Some d) l
               [mkDocument 1 "a.pdf" (Some NEEDS_REVIEW);
                mkDocument 2 "a.pdf" (Some SUCCEEDED)].
Proof.
  refine (proj1 (get_duplicate_documents_groups decimal scenario
                   {[ "a.pdf" := [mkDocument 1 "a.pdf" (Some NEEDS_REVIEW);
                                  mkDocument 2 "a.pdf" (Some SUCCEEDED)] ]}
                   "a.pdf" _ _) _).
  - vm_compute; reflexivity.
  - vm_compute; reflexivity.
Defined.

Lemma get_duplicate_documents_raises_witness :
  (get_duplicate_documents decimal pathless_store).1 = Raise ValidationError.
Proof.
  apply (get_duplicate_documents_raises decimal pathless_store ValidationError).
  split; [reflexivity|]. eexists VNone, _. split; [vm_compute; reflexivity|].
  left. intros s. discriminate.
Defined.

Lemma get_duplicate_documents_share_path_witness :
  1 < length [mkDocument 1 "a.pdf" (Some NEEDS_REVIEW);
              mkDocument 2 "a.pdf" (Some SUCCEEDED)] ∧
  Forall (λ d, pdf_path d = "a.pdf")
         [mkDocument 1 "a.pdf" (Some NEEDS_REVIEW);
          mkDocument 2 "a.pdf" (Some SUCCEEDED)].
Proof.
  pose proof (get_duplicate_documents_share_path decimal scenario_rows scenario []
    {[ "a.pdf" := [mkDocument 1 "a.pdf" (Some NEEDS_REVIEW);
                   mkDocument 2 "a.pdf" (Some SUCCEEDED)] ]}
    "a.pdf" [mkDocument 1 "a.pdf" (Some NEEDS_REVIEW);
             mkDocument 2 "a.pdf" (Some SUCCEEDED)]) as H.
  destruct H as (H1 & H2 & _).
  - vm_compute; reflexivity.
  - vm_compute; reflexivity.
  - vm_compute; reflexivity.
  - split; assumption.
Defined.

Lemma unique_ids_indexed_witness :
  ∃ k, fields doc2 !! "id" = Some k ∧ (∀ z, k ≠ VInt z) ∧
       documents_by_id (serve decimal [GET_documents_duplicates] scenario).2 !! k
         = Some (PyDict doc2).
Proof.
  apply (unique_ids_indexed decimal scenario_rows scenario _ doc2).
  - vm_compute; reflexivity.
  - vm_compute. repeat constructor; set_solver.
  - vm_compute. set_solver.
Defined.

Lemma update_document_moves_witness :
  (update_document decimal 1 (status_set (Some SUCCEEDED)) int_keyed_scenario).1
  = Ok (DocumentResponse (mkDocument 1 "a.pdf" (Some SUCCEEDED))).
Proof.
  refine (proj1 (update_document_moves decimal 1 (status_set (Some SUCCEEDED))
                   int_keyed_scenario doc1
                   (mkDocument 1 "a.pdf" (Some NEEDS_REVIEW)) [] _ _ _)).
  - vm_compute; reflexivity.
  - vm_compute; reflexivity.
  - vm_compute; reflexivity.
Defined.

Lemma update_document_raises_keeps_indexes_witness :
  documents_by_id (update_document decimal 1 status_unset scenario).2
  = documents_by_id scenario.
Proof.
  refine (proj1 (proj2 (proj2 (update_document_raises_keeps_indexes decimal 1
                   status_unset scenario (KeyError (VInt 1)) _)))).
  vm_compute; reflexivity.
Defined.
